(** * Global AI Content Impact dashboard (app2.py): filter engine and
      aggregation layer

    The script loads one table, builds a boolean mask from three sidebar
    multiselects, and feeds the masked table to a series of pandas
    reductions ([mean], [sum], [nunique], [groupby(..).mean()],
    [value_counts], [sort_values]).  This file embeds that data flow and
    states the properties the dashboard relies on.

    Modelling conventions.
    - A DataFrame is the list of its rows, in index order.
    - [Year] is an integer column, [Country], [Industry] and the other
      categorical columns are strings (always present).
    - A float64 cell is [option Qc]: [NaN] for a missing value, [Some q]
      for a number, held as the exact decimal of the CSV.  The reductions
      on these cells add and divide exactly; pandas does so in IEEE
      binary64.  Statements about numeric results are therefore kept to
      the cases in which binary64 gives the same value (empty and one-value
      reductions, small whole numbers), and [binary64_mean] evaluates the
      group means in binary64 where rounding decides.
    - Only [Year], [Country] and [Industry] are required of a row; every
      other cell may be missing. *)

From Stdlib Require Import ZArith QArith Qcanon.
From Stdlib Require Floats.PrimFloat Numbers.Cyclic.Int63.Uint63.
From stdpp Require Import base decidable option list sorting numbers strings.

Local Open Scope Z_scope.

(** ** Data model *)

Abbreviation float := (option Qc).
Abbreviation NaN := (@None Qc).

Record Row := mkRow {
  Year : Z;
  Country : string;
  Industry : string;
  AI_Adoption_Rate : float;
  AI_Generated_Content_Volume : float;
  Job_Loss_Due_to_AI : float;
  Revenue_Increase_Due_to_AI : float;
  Human_AI_Collaboration_Rate : float;
  Consumer_Trust_in_AI : float;
  Top_AI_Tools_Used : option string;
  Regulation_Status : option string
}.

Abbreviation DataFrame := (list Row).

(** The numeric columns a chart can be asked to reduce. *)
Inductive column :=
  | col_adoption
  | col_volume
  | col_job_loss
  | col_revenue
  | col_collab
  | col_trust.

(** [df[col]] on one row. *)
Definition cell (c : column) (r : Row) : float :=
  match c with
  | col_adoption => AI_Adoption_Rate r
  | col_volume => AI_Generated_Content_Volume r
  | col_job_loss => Job_Loss_Due_to_AI r
  | col_revenue => Revenue_Increase_Due_to_AI r
  | col_collab => Human_AI_Collaboration_Rate r
  | col_trust => Consumer_Trust_in_AI r
  end.

(** ** pandas primitives used by the filter *)

Section Series.
Context {A : Type} `{EqDecision A}.

(** [Series.isin(values)]: one boolean per entry. *)
Definition isin (s : list A) (values : list A) : list bool :=
  (λ x, bool_decide (x ∈ values)) <$> s.

(** [Series.unique()]: distinct entries in order of first appearance. *)
Fixpoint unique_from (seen : list A) (s : list A) : list A :=
  match s with
  | [] => []
  | x :: s' =>
      if decide (x ∈ seen) then unique_from seen s'
      else x :: unique_from (x :: seen) s'
  end.

Definition unique (s : list A) : list A := unique_from [] s.

(** [Series.nunique()]. *)
Definition nunique (s : list A) : nat := length (unique s).
End Series.

(** [m1 & m2] on boolean Series of one index. *)
Definition mask_and (m1 m2 : list bool) : list bool := zip_with andb m1 m2.

(** [df[mask]]: the rows whose mask entry is [True]. *)
Fixpoint getitem_mask {A} (df : list A) (mask : list bool) : list A :=
  match df, mask with
  | r :: df', b :: mask' =>
      if b then r :: getitem_mask df' mask' else getitem_mask df' mask'
  | _, _ => []
  end.

(** Python's [sorted] on the key columns. *)
Definition sorted_Z (l : list Z) : list Z := merge_sort Z.le l.
Definition sorted_str (l : list string) : list string := merge_sort String.le l.

(** ** Sidebar *)

(** [st.multiselect(label, options, default)]: the default on a widget the
    user has not touched, the user's choice afterwards. *)
Definition multiselect {A} (state : option (list A))
    (options default : list A) : list A :=
  match state with
  | None => default
  | Some chosen => chosen
  end.

(** What the browser holds for the four sidebar widgets.  The second
    industries widget has no [key]; it is a widget of its own. *)
Record Sidebar := mkSidebar {
  years_multiselect : option (list Z);
  countries_multiselect : option (list string);
  industries_multiselect : option (list string);
  industries_unkeyed : option (list string)
}.

Definition years (df : DataFrame) : list Z := sorted_Z (unique (Year <$> df)).
Definition countries (df : DataFrame) : list string :=
  sorted_str (unique (Country <$> df)).
Definition industries (df : DataFrame) : list string :=
  sorted_str (unique (Industry <$> df)).

(** ** Filter engine (app2.py, lines 67-71) *)

Definition filtered_df (df : DataFrame) (selected_years : list Z)
    (selected_countries selected_industries : list string) : DataFrame :=
  getitem_mask df
    (mask_and
       (mask_and (isin (Year <$> df) selected_years)
                 (isin (Country <$> df) selected_countries))
       (isin (Industry <$> df) selected_industries)).

(** Lines 30-71 of the script as one function of the table and the sidebar
    state.  [selected_industries] is bound twice, as in the script: the
    second binding shadows the first. *)
Definition script_filtered_df (df : DataFrame) (ui : Sidebar) : DataFrame :=
  let years := years df in
  let countries := countries df in
  let industries := industries df in
  let default_years := years in
  let default_countries := countries in
  let default_industries := industries in
  let selected_years :=
    multiselect (years_multiselect ui) years default_years in
  let selected_countries :=
    multiselect (countries_multiselect ui) countries default_countries in
  let selected_industries :=
    multiselect (industries_multiselect ui) industries default_industries in
  let selected_industries :=
    multiselect (industries_unkeyed ui) industries default_industries in
  filtered_df df selected_years selected_countries selected_industries.

(** The membership predicate of a FilterSelection. *)
Definition selected (ys : list Z) (cs inds : list string) (r : Row) : Prop :=
  Year r ∈ ys ∧ Country r ∈ cs ∧ Industry r ∈ inds.

Global Instance selected_dec ys cs inds r : Decision (selected ys cs inds r).
Proof. unfold selected. apply _. Defined.

(** ** Aggregation layer: pandas reductions *)

(** [Series.dropna()] on a float column. *)
Definition dropna (s : list float) : list Qc := omap id s.

Definition Qc_sum (vs : list Qc) : Qc := foldr Qcplus 0%Qc vs.

Definition Qc_of_nat (n : nat) : Qc := Qc_of_Z (Z.of_nat n).

(** [Series.sum()]: missing values are skipped; with the default
    [min_count=0] the sum of nothing is [0.0]. *)
Definition series_sum (s : list float) : float := Some (Qc_sum (dropna s)).

(** [Series.mean()]: missing values are skipped; the mean of nothing is
    [nan]. *)
Definition series_mean (s : list float) : float :=
  match dropna s with
  | [] => NaN
  | vs => Some (Qc_sum vs / Qc_of_nat (length vs))%Qc
  end.

(** [Series.count()]: the number of entries that are not missing. *)
Definition series_count (s : list float) : float :=
  Some (Qc_of_nat (length (dropna s))).

(** The three reductions of the aggregation layer. *)
Inductive reducer := agg_mean | agg_sum | agg_count.

Definition reduce (f : reducer) (c : column) (rows : DataFrame) : float :=
  match f with
  | agg_mean => series_mean (cell c <$> rows)
  | agg_sum => series_sum (cell c <$> rows)
  | agg_count => series_count (cell c <$> rows)
  end.

Section GroupBy.
Context {K : Type} `{EqDecision K}.
Context (le : relation K) `{∀ x y, Decision (le x y)}.
Context {V : Type}.

(** [df.groupby(key)] with the default [sort=True]: one group per
    distinct label, labels in ascending order, each group holding its
    rows in table order. *)
Definition groupby (key : Row → K) (df : DataFrame) : list (K * DataFrame) :=
  (λ k, (k, filter (λ r, key r = k) df)) <$>
    merge_sort le (unique (key <$> df)).

(** [df.groupby(key)[col].agg().reset_index()]: one (label, value) row per
    group. *)
Definition groupby_agg (key : Row → K) (agg : DataFrame → V)
    (df : DataFrame) : list (K * V) :=
  (λ g, (g.1, agg g.2)) <$> groupby key df.
End GroupBy.

(** Order of the labels of a two-column [groupby(['Year', col])]. *)
Definition year_label_le (a b : Z * string) : Prop :=
  a.1 < b.1 ∨ (a.1 = b.1 ∧ String.le a.2 b.2).

Global Instance year_label_le_dec : RelDecision year_label_le.
Proof. intros a b. unfold year_label_le. apply _. Defined.

(** [sort_values(col, ascending=False)] on an aggregated table: larger
    values first, [nan] rows last ([na_position='last']).  pandas sorts
    with quicksort, which leaves the order of equal values open; the merge
    sort used here fixes one such order. *)
Definition value_desc {K} (a b : K * float) : Prop :=
  match a.2, b.2 with
  | Some x, Some y => (y ≤ x)%Qc
  | Some _, None => True
  | None, Some _ => False
  | None, None => True
  end.

Global Instance value_desc_dec {K} : RelDecision (@value_desc K).
Proof.
  intros a b. unfold value_desc.
  destruct (a.2), (b.2); apply _.
Defined.

Definition sort_values_desc {K} (t : list (K * float)) : list (K * float) :=
  merge_sort value_desc t.

(** [Series.value_counts().reset_index()]: missing entries are dropped
    ([dropna=True]); one (value, count) row per distinct value left, most
    frequent first. *)
Definition count_desc (a b : string * nat) : Prop := (b.2 ≤ a.2)%nat.

Global Instance count_desc_dec : RelDecision count_desc.
Proof. intros a b. unfold count_desc. apply _. Defined.

Definition value_counts (s : list (option string)) : list (string * nat) :=
  let present := omap id s in
  merge_sort count_desc
    ((λ v, (v, length (filter (λ x, x = v) present))) <$> unique present).

(** ** Aggregations of the script, by tab *)

(** Overview tab, KPI rows (lines 86-115). *)
Definition avg_adoption (fdf : DataFrame) : float :=
  series_mean (AI_Adoption_Rate <$> fdf).
Definition avg_job_loss (fdf : DataFrame) : float :=
  series_mean (Job_Loss_Due_to_AI <$> fdf).
Definition avg_revenue (fdf : DataFrame) : float :=
  series_mean (Revenue_Increase_Due_to_AI <$> fdf).
Definition avg_trust (fdf : DataFrame) : float :=
  series_mean (Consumer_Trust_in_AI <$> fdf).
Definition total_content (fdf : DataFrame) : float :=
  series_sum (AI_Generated_Content_Volume <$> fdf).
Definition avg_collab (fdf : DataFrame) : float :=
  series_mean (Human_AI_Collaboration_Rate <$> fdf).
Definition num_countries (fdf : DataFrame) : nat :=
  nunique (Country <$> fdf).
Definition num_industries (fdf : DataFrame) : nat :=
  nunique (Industry <$> fdf).

(** Geographical tab (lines 163-183). *)
Definition content_volume (fdf : DataFrame) : list (string * float) :=
  groupby_agg String.le Country (reduce agg_mean col_volume) fdf.

Definition content_volume_bar (fdf : DataFrame) : list (string * float) :=
  sort_values_desc (content_volume fdf).

Definition country_metric (metric : column) (fdf : DataFrame)
    : list (string * float) :=
  groupby_agg String.le Country (reduce agg_mean metric) fdf.

Definition country_metric_bar (metric : column) (fdf : DataFrame)
    : list (string * float) :=
  sort_values_desc (country_metric metric fdf).

(** Industry tab (lines 208-213). *)
Definition industry_metric (metric : column) (fdf : DataFrame)
    : list (string * float) :=
  groupby_agg String.le Industry (reduce agg_mean metric) fdf.

Definition industry_metric_bar (metric : column) (fdf : DataFrame)
    : list (string * float) :=
  sort_values_desc (industry_metric metric fdf).

(** Trends tab (lines 218-246).  [group_by] is the radio choice. *)
Inductive group_by := by_country | by_industry.

Definition group_column (g : group_by) (r : Row) : string :=
  match g with
  | by_country => Country r
  | by_industry => Industry r
  end.

Definition time_trend (metric : column) (g : group_by) (fdf : DataFrame)
    : list ((Z * string) * float) :=
  groupby_agg year_label_le (λ r, (Year r, group_column g r))
    (reduce agg_mean metric) fdf.

Definition country_trend (fdf : DataFrame) : list ((Z * string) * float) :=
  groupby_agg year_label_le (λ r, (Year r, Country r))
    (reduce agg_mean col_adoption) fdf.

Definition industry_trend (fdf : DataFrame) : list ((Z * string) * float) :=
  groupby_agg year_label_le (λ r, (Year r, Industry r))
    (reduce agg_mean col_adoption) fdf.

(** Deep-dive tab (line 277). *)
Definition tool_counts (fdf : DataFrame) : list (string * nat) :=
  value_counts (Top_AI_Tools_Used <$> fdf).

(** The aggregation the specification describes for the country volume
    chart: group by country, reduce the content volume with sum.  The
    script has no such call; this is the specification's reading, kept for
    comparison with [content_volume]. *)
Definition content_volume_by_sum (fdf : DataFrame) : list (string * float) :=
  groupby_agg String.le Country (reduce agg_sum col_volume) fdf.

(** ** Deep-dive tab: tool usage of one industry or one country
      (lines 288-353) *)

(** [st.selectbox(label, options)]: the option at the position the user
    picked, position 0 until they pick; [None] when there is no such
    option, in particular when [options] is empty. *)
Definition selectbox {A} (index : nat) (options : list A) : option A :=
  options !! index.

(** [Series == value]: one boolean per entry; no entry equals [None]. *)
Definition eq_mask (s : list string) (value : option string) : list bool :=
  (λ x, bool_decide (Some x = value)) <$> s.

Definition selected_industry (index : nat) (fdf : DataFrame) : option string :=
  selectbox index (unique (Industry <$> fdf)).

Definition industry_tools (index : nat) (fdf : DataFrame) : DataFrame :=
  getitem_mask fdf (eq_mask (Industry <$> fdf) (selected_industry index fdf)).

(** The [data] list given to the industry donut: the rows of
    [value_counts().reset_index()], as (tool, count) tuples. *)
Definition industry_pie_data (index : nat) (fdf : DataFrame)
    : list (string * nat) :=
  value_counts (Top_AI_Tools_Used <$> industry_tools index fdf).

Definition selected_country (index : nat) (fdf : DataFrame) : option string :=
  selectbox index (unique (Country <$> fdf)).

Definition country_tools (index : nat) (fdf : DataFrame) : DataFrame :=
  getitem_mask fdf (eq_mask (Country <$> fdf) (selected_country index fdf)).

Definition country_pie_data (index : nat) (fdf : DataFrame)
    : list (string * nat) :=
  value_counts (Top_AI_Tools_Used <$> country_tools index fdf).

(** Rows with two tools and two industries, for the tool charts. *)
Definition tool_row (c i : string) (tool : option string) : Row :=
  mkRow 2022 c i NaN NaN NaN NaN NaN NaN tool (Some "Lenient").

Definition tools_df : DataFrame :=
  [ tool_row "USA" "Media" (Some "ChatGPT");
    tool_row "UK" "Retail" (Some "Claude");
    tool_row "USA" "Media" (Some "Claude");
    tool_row "India" "Media" (Some "Claude") ].

(** Two rows of one country, the second with no tool recorded. *)
Definition missing_tool_df : DataFrame :=
  [ tool_row "USA" "Media" (Some "ChatGPT");
    tool_row "USA" "Retail" None ].

(** ** The group means in binary64 *)

(** The double pandas holds for a decimal of the CSV: the correctly
    rounded quotient of its numerator by its denominator (both are whole
    numbers below 2^53 in the tables used here). *)
Definition binary64_of_Z (z : Z) : PrimFloat.float :=
  match z with
  | Z0 => PrimFloat.zero
  | Zpos _ => PrimFloat.of_uint63 (Uint63.of_Z z)
  | Zneg p => PrimFloat.opp (PrimFloat.of_uint63 (Uint63.of_Z (Zpos p)))
  end.

Definition binary64_of_Qc (q : Qc) : PrimFloat.float :=
  PrimFloat.div (binary64_of_Z (Qnum q)) (binary64_of_Z (Zpos (Qden q))).

(** Sum from first to last. *)
Definition plain_sum (vs : list PrimFloat.float) : PrimFloat.float :=
  foldl PrimFloat.add PrimFloat.zero vs.

(** Compensated (Kahan) sum, the accumulation used by the group-by mean
    of pandas. *)
Fixpoint kahan_from (sum comp : PrimFloat.float) (vs : list PrimFloat.float)
    : PrimFloat.float :=
  match vs with
  | [] => sum
  | v :: vs' =>
      let y := PrimFloat.sub v comp in
      let t := PrimFloat.add sum y in
      kahan_from t (PrimFloat.sub (PrimFloat.sub t sum) y) vs'
  end.

Definition kahan_sum (vs : list PrimFloat.float) : PrimFloat.float :=
  kahan_from PrimFloat.zero PrimFloat.zero vs.

(** Mean of the present values of a column, in row order, with the
    summation [alg]; [nan] when no value is present. *)
Definition binary64_mean (alg : list PrimFloat.float → PrimFloat.float)
    (c : column) (rows : DataFrame) : PrimFloat.float :=
  match dropna (cell c <$> rows) with
  | [] => PrimFloat.nan
  | vs =>
      PrimFloat.div (alg (binary64_of_Qc <$> vs))
        (binary64_of_Z (Z.of_nat (length vs)))
  end.

(** [filtered_df.groupby('Country')[metric].mean().reset_index()] with
    binary64 values. *)
Definition binary64_country_metric
    (alg : list PrimFloat.float → PrimFloat.float) (metric : column)
    (fdf : DataFrame) : list (string * PrimFloat.float) :=
  groupby_agg String.le Country (binary64_mean alg metric) fdf.

(** ** Sample tables *)

Definition sample_row (y : Z) (c i : string) (adoption volume : float) : Row :=
  mkRow y c i adoption volume NaN NaN NaN NaN (Some "ChatGPT") (Some "Strict").

Definition num (z : Z) : float := Some (Qc_of_Z z).

(** Three rows: two for USA/Media in 2020 (adoption 40 and 60, volume 10
    and 20) and one for UK/Retail in 2021. *)
Definition sample_df : DataFrame :=
  [ sample_row 2020 "USA" "Media" (num 40) (num 10);
    sample_row 2020 "USA" "Media" (num 60) (num 20);
    sample_row 2021 "UK" "Retail" (num 30) (num 5) ].

(** The same rows in another order. *)
Definition sample_df_shuffled : DataFrame :=
  [ sample_row 2021 "UK" "Retail" (num 30) (num 5);
    sample_row 2020 "USA" "Media" (num 60) (num 20);
    sample_row 2020 "USA" "Media" (num 40) (num 10) ].

(** Three USA rows with adoption rates 13.8, 58.3 and 86.8, and the same
    rows from last to first. *)
Definition decimal (n : Z) (d : positive) : float := Some (Q2Qc (n # d)).

Definition rounding_df : DataFrame :=
  [ sample_row 2020 "USA" "Media" (decimal 138 10) NaN;
    sample_row 2021 "USA" "Media" (decimal 583 10) NaN;
    sample_row 2022 "USA" "Media" (decimal 868 10) NaN ].

Definition rounding_df_reversed : DataFrame :=
  [ sample_row 2022 "USA" "Media" (decimal 868 10) NaN;
    sample_row 2021 "USA" "Media" (decimal 583 10) NaN;
    sample_row 2020 "USA" "Media" (decimal 138 10) NaN ].

(** A USA group with one rate present (42) and two missing, and a UK group
    with no rate at all. *)
Definition sparse_df : DataFrame :=
  [ sample_row 2020 "USA" "Media" NaN (num 7);
    sample_row 2021 "USA" "Media" (num 42) NaN;
    sample_row 2022 "USA" "Retail" NaN NaN;
    sample_row 2020 "UK" "Retail" NaN NaN ].

(** ** Lemmas on the primitives *)

Section SeriesFacts.
Context {A : Type} `{EqDecision A}.
Implicit Types (s seen : list A) (x : A).

Lemma elem_of_unique_from seen s x :
  x ∈ unique_from seen s ↔ x ∈ s ∧ x ∉ seen.
Proof.
  revert seen. induction s as [|y s IH]; intros seen; simpl.
  - rewrite !elem_of_nil. tauto.
  - destruct (decide (y ∈ seen)) as [Hy|Hy].
    + rewrite IH, elem_of_cons. split; [tauto|].
      intros [[->|?] ?]; tauto.
    + rewrite !elem_of_cons, IH, elem_of_cons. split.
      * intros [->|[? ?]]; tauto.
      * intros [[->|?] ?]; [tauto|].
        destruct (decide (x = y)); tauto.
Qed.

Lemma elem_of_unique s x : x ∈ unique s ↔ x ∈ s.
Proof.
  unfold unique. rewrite elem_of_unique_from, elem_of_nil. tauto.
Qed.

Lemma NoDup_unique_from seen s : NoDup (unique_from seen s).
Proof.
  revert seen. induction s as [|y s IH]; intros seen; simpl.
  - constructor.
  - destruct (decide (y ∈ seen)); [apply IH|].
    constructor; [|apply IH].
    rewrite elem_of_unique_from, elem_of_cons. tauto.
Qed.

Lemma NoDup_unique s : NoDup (unique s).
Proof. apply NoDup_unique_from. Qed.
End SeriesFacts.

Lemma getitem_mask_filter {A} (P : A → Prop) `{∀ x, Decision (P x)}
    (df : list A) :
  getitem_mask df ((λ r, bool_decide (P r)) <$> df) = filter P df.
Proof.
  induction df as [|r df IH]; [done|].
  rewrite fmap_cons, filter_cons. cbn [getitem_mask]. rewrite IH.
  destruct (decide (P r)) as [Hr|Hr].
  - by rewrite bool_decide_eq_true_2.
  - by rewrite bool_decide_eq_false_2.
Qed.

Lemma mask_and_fmap {A} (f g : A → bool) (df : list A) :
  mask_and (f <$> df) (g <$> df) = (λ r, f r && g r) <$> df.
Proof. induction df as [|r df IH]; simpl; [done|]. by f_equal. Qed.

Lemma filtered_df_filter df ys cs inds :
  filtered_df df ys cs inds = filter (selected ys cs inds) df.
Proof.
  unfold filtered_df, isin. rewrite <- !list_fmap_compose.
  rewrite !mask_and_fmap.
  rewrite <- (getitem_mask_filter (selected ys cs inds)).
  f_equal. apply list_fmap_ext. intros _ r _. simpl.
  destruct (bool_decide_reflect (selected ys cs inds r)) as [Hs|Hs];
    unfold selected in Hs.
  - destruct Hs as (? & ? & ?). by rewrite !bool_decide_eq_true_2.
  - apply andb_false_iff. rewrite andb_false_iff.
    rewrite !bool_decide_eq_false.
    destruct (decide (Year r ∈ ys)); [|tauto].
    destruct (decide (Country r ∈ cs)); [|tauto].
    destruct (decide (Industry r ∈ inds)); tauto.
Qed.

Lemma elem_of_years df y : y ∈ years df ↔ ∃ r, r ∈ df ∧ Year r = y.
Proof.
  unfold years, sorted_Z. rewrite merge_sort_Permutation, elem_of_unique.
  rewrite list_elem_of_fmap. split; intros (r & ? & ?); eauto.
Qed.

Lemma elem_of_countries df c : c ∈ countries df ↔ ∃ r, r ∈ df ∧ Country r = c.
Proof.
  unfold countries, sorted_str. rewrite merge_sort_Permutation, elem_of_unique.
  rewrite list_elem_of_fmap. split; intros (r & ? & ?); eauto.
Qed.

Lemma elem_of_industries df i :
  i ∈ industries df ↔ ∃ r, r ∈ df ∧ Industry r = i.
Proof.
  unfold industries, sorted_str.
  rewrite merge_sort_Permutation, elem_of_unique.
  rewrite list_elem_of_fmap. split; intros (r & ? & ?); eauto.
Qed.

Lemma filter_all {A} (P : A → Prop) `{∀ x, Decision (P x)} (l : list A) :
  Forall P l → filter P l = l.
Proof.
  induction 1 as [|x l Hx _ IH]; [done|].
  by rewrite filter_cons_True, IH.
Qed.

Lemma filter_none {A} (P : A → Prop) `{∀ x, Decision (P x)} (l : list A) :
  (∀ x, ¬ P x) → filter P l = [].
Proof.
  intros HP. induction l as [|x l IH]; [done|].
  by rewrite filter_cons_False; [|apply HP].
Qed.

(** ** Orders used by the sorts *)

Global Instance year_label_le_trans : Transitive year_label_le.
Proof.
  intros [y1 s1] [y2 s2] [y3 s3]; unfold year_label_le; simpl.
  intros [?|[-> H12]] [?|[-> H23]]; [left; lia..|].
  right. split; [done|]. by etrans.
Qed.

Global Instance year_label_le_antisym : AntiSymm (=) year_label_le.
Proof.
  intros [y1 s1] [y2 s2]; unfold year_label_le; simpl.
  intros [?|[-> H12]] [?|[? H21]]; try lia.
  f_equal. by apply (anti_symm String.le).
Qed.

Global Instance year_label_le_total : Total year_label_le.
Proof.
  intros [y1 s1] [y2 s2]; unfold year_label_le; simpl.
  destruct (Z.lt_trichotomy y1 y2) as [?|[->|?]]; [by left; left| |by right; left].
  destruct (total String.le s1 s2); [left|right]; by right.
Qed.

Global Instance value_desc_trans {K} : Transitive (@value_desc K).
Proof.
  intros [k1 [x|]] [k2 [y|]] [k3 [z|]]; unfold value_desc; simpl;
    try done.
  intros ??. by etrans.
Qed.

Global Instance value_desc_total {K} : Total (@value_desc K).
Proof.
  intros [k1 [x|]] [k2 [y|]]; unfold value_desc; simpl; auto.
  destruct (total Qcle x y); auto.
Qed.

Global Instance count_desc_trans : Transitive count_desc.
Proof. intros a b c; unfold count_desc. lia. Qed.

Global Instance count_desc_total : Total count_desc.
Proof. intros a b; unfold count_desc. lia. Qed.

(** ** Permuting the rows *)

Lemma unique_Permutation {A} `{EqDecision A} (s s' : list A) :
  s ≡ₚ s' → unique s ≡ₚ unique s'.
Proof.
  intros Hp. apply NoDup_Permutation; [apply NoDup_unique..|].
  intros x. by rewrite !elem_of_unique, Hp.
Qed.

Lemma merge_sort_Permutation_eq {A} (R : relation A)
    `{∀ x y, Decision (R x y)} `{!Transitive R, !AntiSymm (=) R, !Total R}
    (l l' : list A) :
  l ≡ₚ l' → merge_sort R l = merge_sort R l'.
Proof.
  intros Hp. apply (Sorted_unique R); [apply Sorted_merge_sort; apply _..|].
  by rewrite !merge_sort_Permutation.
Qed.

Lemma Qc_sum_Permutation (vs vs' : list Qc) :
  vs ≡ₚ vs' → Qc_sum vs = Qc_sum vs'.
Proof.
  induction 1 as [|x l l' _ IH|x y l|l l' l'' _ IH1 _ IH2]; simpl.
  - done.
  - by rewrite IH.
  - ring.
  - by rewrite IH1.
Qed.

Lemma dropna_Permutation (s s' : list float) :
  s ≡ₚ s' → dropna s ≡ₚ dropna s'.
Proof. intros Hp. unfold dropna. by rewrite Hp. Qed.

Lemma series_count_Permutation s s' :
  s ≡ₚ s' → series_count s = series_count s'.
Proof.
  intros Hp. unfold series_count. by rewrite (dropna_Permutation _ _ Hp).
Qed.

Lemma series_mean_Permutation s s' :
  s ≡ₚ s' → series_mean s = series_mean s'.
Proof.
  intros Hp%dropna_Permutation. unfold series_mean.
  pose proof (Qc_sum_Permutation _ _ Hp) as Hsum.
  pose proof (Permutation_length Hp) as Hlen.
  destruct (dropna s) as [|v vs], (dropna s') as [|v' vs']; try done.
  by rewrite Hsum, Hlen.
Qed.

(** ** Group-by *)

Section GroupByFacts.
Context {K : Type} `{EqDecision K}.
Context (le : relation K) `{∀ x y, Decision (le x y)}.
Context {V : Type}.
Implicit Types (key : Row → K) (agg : DataFrame → V) (df : DataFrame).

Lemma groupby_agg_unfold key agg df :
  groupby_agg le key agg df =
    (λ k, (k, agg (filter (λ r, key r = k) df))) <$>
      merge_sort le (unique (key <$> df)).
Proof.
  unfold groupby_agg, groupby. rewrite <- list_fmap_compose.
  by apply list_fmap_ext.
Qed.

Lemma groupby_agg_labels key agg df :
  (groupby_agg le key agg df).*1 = merge_sort le (unique (key <$> df)).
Proof.
  rewrite groupby_agg_unfold, <- list_fmap_compose.
  rewrite <- (list_fmap_id (merge_sort _ _)) at 2.
  by apply list_fmap_ext.
Qed.

Lemma elem_of_groupby_labels key agg df k :
  k ∈ (groupby_agg le key agg df).*1 ↔ ∃ r, r ∈ df ∧ key r = k.
Proof.
  rewrite groupby_agg_labels, merge_sort_Permutation, elem_of_unique.
  rewrite list_elem_of_fmap. split; intros (r & ? & ?); eauto.
Qed.

Lemma elem_of_groupby_agg key agg df k v :
  (k, v) ∈ groupby_agg le key agg df ↔
    (∃ r, r ∈ df ∧ key r = k) ∧ v = agg (filter (λ r, key r = k) df).
Proof.
  rewrite groupby_agg_unfold, list_elem_of_fmap. split.
  - intros (k' & [= -> ->] & Hk). split; [|done].
    rewrite merge_sort_Permutation, elem_of_unique in Hk.
    apply list_elem_of_fmap in Hk as (r & ? & ?); eauto.
  - intros [(r & Hr & Hk) ->]. exists k. split; [done|].
    rewrite merge_sort_Permutation, elem_of_unique, list_elem_of_fmap.
    eauto.
Qed.

Lemma NoDup_groupby_labels key agg df :
  NoDup (groupby_agg le key agg df).*1.
Proof.
  rewrite groupby_agg_labels, merge_sort_Permutation. apply NoDup_unique.
Qed.

Lemma Sorted_groupby_labels `{!Total le} key agg df :
  Sorted le (groupby_agg le key agg df).*1.
Proof. rewrite groupby_agg_labels. by apply Sorted_merge_sort. Qed.

Lemma groupby_agg_Permutation
    `{!Transitive le, !AntiSymm (=) le, !Total le} key agg df df' :
  (∀ rows rows', rows ≡ₚ rows' → agg rows = agg rows') →
  df ≡ₚ df' →
  groupby_agg le key agg df = groupby_agg le key agg df'.
Proof.
  intros Hagg Hp. rewrite !groupby_agg_unfold.
  rewrite (merge_sort_Permutation_eq le _ (unique (key <$> df'))).
  - apply list_fmap_ext. intros _ k _. f_equal.
    apply Hagg. by rewrite Hp.
  - apply unique_Permutation. by rewrite Hp.
Qed.
End GroupByFacts.


(** ** Reductions and missing values *)

Lemma Qc_of_nat_S_ne_0 n : Qc_of_nat (S n) ≠ 0%Qc.
Proof.
  unfold Qc_of_nat. intros Heq.
  apply (f_equal this) in Heq. unfold Qc_of_Z in Heq. simpl in Heq.
  injection Heq as Heq. lia.
Qed.

Lemma Qc_sum_dropna s : Qc_sum (dropna s) = Qc_sum (default 0%Qc <$> s).
Proof.
  unfold Qc_sum, dropna.
  induction s as [|[x|] s IH]; simpl; [done| |].
  - f_equal. exact IH.
  - etrans; [exact IH|]. symmetry. apply Qcplus_0_l.
Qed.

Lemma length_dropna s : length (dropna s) = length (filter is_Some s).
Proof.
  induction s as [|[x|] s IH]; [done| |].
  - rewrite filter_cons_True by eauto. simpl. by f_equal.
  - rewrite filter_cons_False; [done|]. by intros [? ?].
Qed.

Lemma dropna_app_NaN s1 s2 : dropna (s1 ++ NaN :: s2) = dropna (s1 ++ s2).
Proof. unfold dropna. by rewrite !omap_app. Qed.

Lemma series_mean_singleton (x : float) : series_mean [x] = x.
Proof.
  destruct x as [q|]; [|done]. unfold series_mean; simpl. f_equal.
  assert (Qc_of_nat 1 = 1%Qc) as -> by (apply Qc_is_canon; reflexivity).
  field. discriminate.
Qed.

(** Closed equations between float results: evaluate, then compare the
    canonical rationals by their fractions. *)
Ltac Qc_compute :=
  vm_compute;
  lazymatch goal with
  | |- Some _ = Some _ => apply (f_equal Some)
  | |- _ => idtac
  end;
  apply Qc_is_canon; reflexivity.

(** * Filter engine *)

(** C1.  For every table and every selection (years, countries,
    industries), the FilteredView computed by the boolean mask of lines
    67-71 is exactly the rows of the table whose Year is among the selected
    years, whose Country is among the selected countries and whose Industry
    is among the selected industries, in table order; it is a sub-table of
    the records and each of its rows satisfies all three memberships. *)
Theorem filtered_df_correct (df : DataFrame) (ys : list Z)
    (cs inds : list string) :
  filtered_df df ys cs inds = filter (selected ys cs inds) df
  ∧ (∀ r, r ∈ filtered_df df ys cs inds ↔
          r ∈ df ∧ Year r ∈ ys ∧ Country r ∈ cs ∧ Industry r ∈ inds)
  ∧ filtered_df df ys cs inds `sublist_of` df
  ∧ filtered_df df ys cs inds ⊆ df.
Proof.
  rewrite filtered_df_filter. split_and!.
  - done.
  - intros r. rewrite list_elem_of_filter. unfold selected. tauto.
  - apply sublist_filter.
  - intros r. rewrite list_elem_of_filter. tauto.
Qed.

(** C3.  When at least one of the three selections is empty, the
    FilteredView is the empty table; the filter is a total function, so
    there is no error case. *)
Theorem filtered_df_empty_selection (df : DataFrame) (ys : list Z)
    (cs inds : list string) :
  ys = [] ∨ cs = [] ∨ inds = [] →
  filtered_df df ys cs inds = [].
Proof.
  intros Hempty. rewrite filtered_df_filter. apply filter_none.
  intros r (Hy & Hc & Hi).
  destruct Hempty as [->|[->| ->]]; by eapply not_elem_of_nil.
Qed.

Lemma filtered_df_empty_selection_witness :
  (([2020] : list Z) = [] ∨ ([] : list string) = [] ∨ ["Media"] = [])
  ∧ filtered_df sample_df [2020] [] ["Media"] = [].
Proof.
  assert (([2020] : list Z) = [] ∨ ([] : list string) = [] ∨ ["Media"] = [])
    as H by (right; left; reflexivity).
  split; [exact H|].
  exact (filtered_df_empty_selection sample_df [2020] [] ["Media"] H).
Defined.

(** C4.  Selecting every distinct Year, Country and Industry of the table
    (the defaults of the three multiselects) gives back the table itself. *)
Theorem filtered_df_full_selection (df : DataFrame) :
  filtered_df df (years df) (countries df) (industries df) = df
  ∧ script_filtered_df df (mkSidebar None None None None) = df.
Proof.
  assert (filtered_df df (years df) (countries df) (industries df) = df)
    as Hfull.
  { rewrite filtered_df_filter. apply filter_all, Forall_forall.
    intros r Hr. unfold selected.
    rewrite elem_of_years, elem_of_countries, elem_of_industries.
    eauto 10. }
  split; [exact Hfull|]. exact Hfull.
Qed.

(** C10.  The FilteredView is a function of the year widget, the country
    widget and the second (unkeyed) "Select Industries" widget only: the
    value of the first industries multiselect (key
    "industries_multiselect") is overwritten before the mask is built, so
    two sidebar states that differ only there give the same view. *)
Theorem first_industries_widget_ignored (df : DataFrame)
    (ys : option (list Z)) (cs first first' second : option (list string)) :
  script_filtered_df df (mkSidebar ys cs first second)
  = script_filtered_df df (mkSidebar ys cs first' second)
  ∧ script_filtered_df df (mkSidebar ys cs first second)
    = filtered_df df
        (multiselect ys (years df) (years df))
        (multiselect cs (countries df) (countries df))
        (multiselect second (industries df) (industries df)).
Proof. split; reflexivity. Qed.

(** The second industries widget does decide the view: on the sample
    table, choosing only Retail there keeps the one UK row, whatever the
    first widget holds. *)
Example second_industries_widget_decides :
  script_filtered_df sample_df
    (mkSidebar None None (Some ["Media"]) (Some ["Retail"]))
  = [sample_row 2021 "UK" "Retail" (num 30) (num 5)]
  ∧ script_filtered_df sample_df
      (mkSidebar None None (Some ["Retail"]) (Some ["Media"]))
    = [sample_row 2020 "USA" "Media" (num 40) (num 10);
       sample_row 2020 "USA" "Media" (num 60) (num 20)].
Proof. split; reflexivity. Qed.

(** The scenario of the three-row table: years {2020}, countries {USA},
    industries {Media} keep the two USA rows, whose mean adoption is 50. *)
Example sample_filter_and_mean :
  length (filtered_df sample_df [2020] ["USA"] ["Media"]) = 2%nat
  ∧ avg_adoption (filtered_df sample_df [2020] ["USA"] ["Media"]) = num 50.
Proof. split; [reflexivity|Qc_compute]. Qed.

(** * Aggregation layer *)

(** C2, as the script has it.  The table behind the country volume chart
    is [groupby('Country')[volume].mean()]: each country is paired with the
    mean of its content volumes.  On a FilteredView whose USA rows have
    volumes 10 and 20 the pair for USA is (USA, 15), and no other value is
    paired with USA. *)
Theorem content_volume_is_mean (fdf : DataFrame) :
  AI_Generated_Content_Volume <$> filter (λ r, Country r = "USA") fdf
    ≡ₚ [num 10; num 20] →
  ("USA", num 15) ∈ content_volume fdf
  ∧ (∀ v, ("USA", v) ∈ content_volume fdf → v = num 15)
  ∧ (∀ k v, (k, v) ∈ content_volume fdf ↔
       (∃ r, r ∈ fdf ∧ Country r = k)
       ∧ v = series_mean (AI_Generated_Content_Volume <$>
                            filter (λ r, Country r = k) fdf)).
Proof.
  intros Hvol.
  assert (∀ k v, (k, v) ∈ content_volume fdf ↔
       (∃ r, r ∈ fdf ∧ Country r = k)
       ∧ v = series_mean (AI_Generated_Content_Volume <$>
                            filter (λ r, Country r = k) fdf)) as Hspec.
  { intros k v. unfold content_volume. by rewrite elem_of_groupby_agg. }
  assert (series_mean (AI_Generated_Content_Volume <$>
            filter (λ r, Country r = "USA") fdf) = num 15) as Hmean.
  { rewrite (series_mean_Permutation _ _ Hvol). Qc_compute. }
  split_and!; [|by intros v [_ ->]%Hspec|exact Hspec].
  apply Hspec. split; [|done].
  destruct (filter (λ r, Country r = "USA") fdf) as [|r rows] eqn:Hrows.
  - by apply Permutation_nil_l in Hvol.
  - assert (r ∈ filter (λ r, Country r = "USA") fdf) as Hr
      by (rewrite Hrows; left).
    apply list_elem_of_filter in Hr as [? ?]. eauto.
Qed.

Lemma content_volume_is_mean_witness :
  AI_Generated_Content_Volume <$> filter (λ r, Country r = "USA") sample_df
    ≡ₚ [num 10; num 20]
  ∧ ("USA", num 15) ∈ content_volume sample_df.
Proof.
  assert (AI_Generated_Content_Volume <$>
            filter (λ r, Country r = "USA") sample_df ≡ₚ [num 10; num 20])
    as H by reflexivity.
  split; [exact H|]. exact (proj1 (content_volume_is_mean sample_df H)).
Defined.

(** C2, counterexample.  On the sample table the USA rows have volumes 10
    and 20; the table behind the country volume chart pairs USA with 15,
    not with 30.  (Reducing with sum instead would give 30.) *)
Lemma content_volume_not_sum :
  (AI_Generated_Content_Volume <$> filter (λ r, Country r = "USA") sample_df)
    = [num 10; num 20]
  ∧ (("USA", num 30) ∉ content_volume sample_df)
  ∧ ("USA", num 15) ∈ content_volume sample_df
  ∧ ("USA", num 30) ∈ content_volume_by_sum sample_df.
Proof.
  split_and!.
  - reflexivity.
  - unfold content_volume. rewrite elem_of_groupby_agg.
    intros [_ Heq]. vm_compute in Heq. discriminate Heq.
  - unfold content_volume. rewrite elem_of_groupby_agg. split.
    + eexists. split; [left|reflexivity].
    + Qc_compute.
  - unfold content_volume_by_sum. rewrite elem_of_groupby_agg. split.
    + eexists. split; [left|reflexivity].
    + Qc_compute.
Qed.

(** C5, as the script has it.  When the FilteredView is empty no
    reduction fails (each is a total function), every KPI mean is [nan],
    every group-by table and the tool count table is empty, and the
    reductions that are not means give zero: the content-volume total is
    [0.0] and the two distinct counts are [0]. *)
Theorem aggregations_on_empty_view (df : DataFrame) (ys : list Z)
    (cs inds : list string) :
  filtered_df df ys cs inds = [] →
  let fdf := filtered_df df ys cs inds in
  avg_adoption fdf = NaN ∧ avg_job_loss fdf = NaN
  ∧ avg_revenue fdf = NaN ∧ avg_trust fdf = NaN ∧ avg_collab fdf = NaN
  ∧ total_content fdf = Some 0%Qc
  ∧ num_countries fdf = 0%nat ∧ num_industries fdf = 0%nat
  ∧ content_volume_bar fdf = []
  ∧ (∀ metric, country_metric_bar metric fdf = []
               ∧ industry_metric_bar metric fdf = []
               ∧ ∀ g, time_trend metric g fdf = [])
  ∧ country_trend fdf = [] ∧ industry_trend fdf = []
  ∧ tool_counts fdf = [].
Proof.
  intros Hempty fdf. subst fdf. rewrite Hempty.
  split_and!; try reflexivity.
  intros metric. split_and!; reflexivity.
Qed.

Lemma aggregations_on_empty_view_witness :
  filtered_df sample_df [2020; 2021] [] ["Media"; "Retail"] = []
  ∧ avg_adoption (filtered_df sample_df [2020; 2021] [] ["Media"; "Retail"])
    = NaN.
Proof.
  assert (filtered_df sample_df [2020; 2021] [] ["Media"; "Retail"] = [])
    as H by reflexivity.
  split; [exact H|].
  exact (proj1 (aggregations_on_empty_view sample_df [2020; 2021] []
                  ["Media"; "Retail"] H)).
Defined.

(** C5, counterexample.  With no country selected the FilteredView of the
    sample table is empty, and the content-volume total of the overview
    tab is the number 0, which is neither [nan] nor an empty result; the
    two distinct counts are 0 as well. *)
Lemma total_content_on_empty_view_is_zero :
  filtered_df sample_df (years sample_df) [] (industries sample_df) = []
  ∧ total_content
      (filtered_df sample_df (years sample_df) [] (industries sample_df))
    = Some 0%Qc
  ∧ total_content
      (filtered_df sample_df (years sample_df) [] (industries sample_df))
    ≠ NaN
  ∧ num_countries
      (filtered_df sample_df (years sample_df) [] (industries sample_df))
    = 0%nat.
Proof. split_and!; [reflexivity|reflexivity|discriminate|reflexivity]. Qed.

(** C6.  The tables given to the ranking bars (content volume, country
    comparison, industry comparison) are the aggregated tables reordered by
    decreasing value, rows with a [nan] value last; the trend tables
    (grouped by Year and a second column) have their Year labels in
    ascending order. *)
Theorem chart_tables_ordered (metric : column) (g : group_by)
    (fdf : DataFrame) :
  (StronglySorted value_desc (country_metric_bar metric fdf)
   ∧ country_metric_bar metric fdf ≡ₚ country_metric metric fdf)
  ∧ (StronglySorted value_desc (industry_metric_bar metric fdf)
     ∧ industry_metric_bar metric fdf ≡ₚ industry_metric metric fdf)
  ∧ (StronglySorted value_desc (content_volume_bar fdf)
     ∧ content_volume_bar fdf ≡ₚ content_volume fdf)
  ∧ StronglySorted Z.le ((λ p, p.1.1) <$> country_trend fdf)
  ∧ StronglySorted Z.le ((λ p, p.1.1) <$> industry_trend fdf)
  ∧ StronglySorted Z.le ((λ p, p.1.1) <$> time_trend metric g fdf).
Proof.
  assert (∀ (key : Row → Z * string) agg,
    StronglySorted Z.le
      ((λ p : (Z * string) * float, p.1.1) <$>
         groupby_agg year_label_le key agg fdf)) as Htrend.
  { intros key agg.
    pose proof (Sorted_groupby_labels year_label_le key agg fdf) as Hs.
    apply (Sorted_StronglySorted _) in Hs.
    assert ((λ p : (Z * string) * float, p.1.1) <$>
              groupby_agg year_label_le key agg fdf
            = fst <$> (groupby_agg year_label_le key agg fdf).*1) as ->
      by by rewrite <- list_fmap_compose.
    eapply StronglySorted_fmap; [|exact Hs].
    intros [y1 s1] [y2 s2]. unfold year_label_le; simpl. lia. }
  unfold country_metric_bar, industry_metric_bar, content_volume_bar,
    sort_values_desc.
  split_and!;
    try (apply StronglySorted_merge_sort; apply _);
    try apply merge_sort_Permutation; apply Htrend.
Qed.

Lemma length_filter_fmap {A B} (f : A → B) (P : B → Prop)
    `{∀ y, Decision (P y)} (l : list A) :
  length (filter P (f <$> l)) = length (filter (λ x, P (f x)) l).
Proof.
  induction l as [|x l IH]; [done|].
  rewrite fmap_cons, !filter_cons.
  destruct (decide (P (f x))); simpl; [f_equal|]; exact IH.
Qed.

Lemma length_filter_omap_id {A} `{EqDecision A} (s : list (option A)) (v : A) :
  length (filter (λ x, x = v) (omap id s))
  = length (filter (λ x, x = Some v) s).
Proof.
  induction s as [|[x|] s IH]; [done| |].
  - cbn [omap list_omap id]. rewrite !filter_cons.
    destruct (decide (x = v)) as [->|Hne].
    + rewrite decide_True by done. simpl. f_equal. exact IH.
    + rewrite decide_False by congruence. exact IH.
  - rewrite filter_cons_False by done. exact IH.
Qed.

Lemma length_omap_id {A} (s : list (option A)) :
  length (omap id s) = length (filter is_Some s).
Proof.
  induction s as [|[x|] s IH]; [done| |].
  - rewrite filter_cons_True by eauto. simpl. f_equal. exact IH.
  - rewrite filter_cons_False; [exact IH|]. by intros [? ?].
Qed.

Lemma value_counts_Permutation (s s' : list (option string)) :
  s ≡ₚ s' → value_counts s ≡ₚ value_counts s'.
Proof.
  intros Hp. unfold value_counts. rewrite !merge_sort_Permutation.
  assert (omap id s ≡ₚ omap id s') as Hpresent by by rewrite Hp.
  rewrite (unique_Permutation _ _ Hpresent).
  assert (((λ v, (v, length (filter (λ x, x = v) (omap id s))))
             <$> unique (omap id s'))
          = ((λ v, (v, length (filter (λ x, x = v) (omap id s'))))
               <$> unique (omap id s'))) as Heq.
  { apply list_fmap_ext. intros _ v _. f_equal. by rewrite Hpresent. }
  by rewrite Heq.
Qed.

(** ** Missing values in a reduction *)

Lemma dropna_nil_iff (s : list float) :
  dropna s = [] ↔ ∀ x, x ∈ s → x = NaN.
Proof.
  induction s as [|[q|] s IH].
  - split; [intros _ x Hx; by apply elem_of_nil in Hx|done].
  - split; [discriminate|]. intros Hall.
    assert (Some q = NaN) by (apply Hall; left). discriminate.
  - change (dropna (NaN :: s)) with (dropna s). rewrite IH. split.
    + intros Hall x [->|Hx]%elem_of_cons; auto.
    + intros Hall x Hx. apply Hall. by right.
Qed.

Lemma series_mean_NaN_iff (s : list float) :
  series_mean s = NaN ↔ dropna s = [].
Proof. unfold series_mean. by destruct (dropna s). Qed.

Lemma series_one_present (s : list float) (q : Qc) :
  dropna s = [q] → series_mean s = Some q ∧ series_sum s = Some q.
Proof.
  intros Hs. unfold series_mean, series_sum. rewrite Hs. simpl.
  assert (Qc_of_nat 1 = 1%Qc) as -> by (apply Qc_is_canon; reflexivity).
  split; f_equal; [field; discriminate|ring].
Qed.

Lemma series_mean_present (s s' : list float) :
  dropna s = dropna s' → series_mean s = series_mean s'.
Proof. intros Hs. unfold series_mean. by rewrite Hs. Qed.

Lemma series_sum_fill_zero (s : list float) :
  series_sum s = series_sum (Some ∘ default 0%Qc <$> s).
Proof.
  unfold series_sum. f_equal. rewrite Qc_sum_dropna. f_equal.
  induction s as [|x s IH]; [done|].
  rewrite !fmap_cons. cbn [dropna omap list_omap id compose].
  f_equal. exact IH.
Qed.

Lemma present_insert_NaN (c : column) (P : Row → Prop)
    `{∀ r, Decision (P r)} (r : Row) (rows1 rows2 : DataFrame) :
  cell c r = NaN →
  dropna (cell c <$> filter P (rows1 ++ r :: rows2))
  = dropna (cell c <$> filter P (rows1 ++ rows2)).
Proof.
  intros Hr. rewrite !filter_app, filter_cons.
  destruct (decide (P r)); [|done].
  rewrite !fmap_app, fmap_cons, Hr. apply dropna_app_NaN.
Qed.

(** C7.  Missing values are left out of the group-by mean and of the
    column sum and mean.  In a group-by mean table the value of a label is
    [nan] exactly when no row of its group has a value; when exactly one
    row of the group has a value, the mean is that value, however many
    rows of the group are missing theirs; the value depends only on the
    present values of the group, so adding a row whose cell is missing to
    an existing group changes nothing.  For a whole column, the sum treats
    a missing cell as 0 and the mean does not count it: with no value
    present the sum is 0 and the mean [nan], with one value present both
    are that value.  A label appears in a group-by table exactly when some
    row of the view carries it: a label with no row is absent, not paired
    with zero. *)
Theorem missing_values_and_absent_groups {K} `{EqDecision K}
    (le : relation K) `{∀ x y, Decision (le x y)}
    (key : Row → K) (c : column) (fdf : DataFrame) :
  let present k (t : DataFrame) :=
    dropna (cell c <$> filter (λ r, key r = k) t) in
  let mean_table (t : DataFrame) :=
    groupby_agg le key (reduce agg_mean c) t in
  (∀ k v, (k, v) ∈ mean_table fdf →
      (v = NaN ↔ ∀ r, r ∈ fdf → key r = k → cell c r = NaN))
  ∧ (∀ k q, (∃ r, r ∈ fdf ∧ key r = k) → present k fdf = [q] →
       ∀ v, (k, v) ∈ mean_table fdf ↔ v = Some q)
  ∧ (∀ (fdf' : DataFrame) k k' v,
       present k fdf = present k' fdf' →
       (∃ r, r ∈ fdf' ∧ key r = k') →
       (k, v) ∈ mean_table fdf → (k', v) ∈ mean_table fdf')
  ∧ (∀ r rows1 rows2,
       fdf = rows1 ++ rows2 → cell c r = NaN →
       (∃ r', r' ∈ fdf ∧ key r' = key r) →
       ∀ k v, (k, v) ∈ mean_table (rows1 ++ r :: rows2) ↔
              (k, v) ∈ mean_table fdf)
  ∧ ((∀ r, r ∈ fdf → cell c r = NaN) →
       series_mean (cell c <$> fdf) = NaN
       ∧ series_sum (cell c <$> fdf) = Some 0%Qc)
  ∧ (∀ q, dropna (cell c <$> fdf) = [q] →
       series_mean (cell c <$> fdf) = Some q
       ∧ series_sum (cell c <$> fdf) = Some q)
  ∧ series_sum (cell c <$> fdf)
    = series_sum (Some ∘ default 0%Qc <$> (cell c <$> fdf))
  ∧ ((∀ r, r ∈ fdf → AI_Generated_Content_Volume r = NaN) →
       total_content fdf = Some 0%Qc)
  ∧ (∀ q, dropna (AI_Generated_Content_Volume <$> fdf) = [q] →
       total_content fdf = Some q)
  ∧ (∀ k, k ∈ (mean_table fdf).*1 ↔ ∃ r, r ∈ fdf ∧ key r = k)
  ∧ (∀ k, (∀ r, r ∈ fdf → key r ≠ k) →
          ∀ f v, (k, v) ∉ groupby_agg le key (reduce f c) fdf).
Proof.
  intros present mean_table.
  assert (∀ (t : DataFrame) k v, (k, v) ∈ mean_table t ↔
            (∃ r, r ∈ t ∧ key r = k)
            ∧ v = series_mean (cell c <$> filter (λ r, key r = k) t))
    as Htable
    by (intros t k v;
        exact (elem_of_groupby_agg le key (reduce agg_mean c) t k v)).
  assert (∀ col : Row → float, (∀ r, r ∈ fdf → col r = NaN) →
            dropna (col <$> fdf) = []) as Hnone.
  { intros col Hall. apply dropna_nil_iff.
    intros x (r & -> & Hr)%list_elem_of_fmap. by apply Hall. }
  split_and!.
  - intros k v [_ ->]%Htable.
    rewrite series_mean_NaN_iff, dropna_nil_iff. split.
    + intros Hall r Hr Hk. apply Hall, list_elem_of_fmap.
      exists r. split; [done|]. by apply list_elem_of_filter.
    + intros Hall x (r & -> & [Hk Hr]%list_elem_of_filter)%list_elem_of_fmap.
      by apply Hall.
  - intros k q Hrow Hone v. rewrite Htable.
    destruct (series_one_present _ q Hone) as [-> _]. tauto.
  - intros fdf' k k' v Hsame Hrow [_ ->]%Htable.
    apply Htable. split; [done|]. by apply series_mean_present.
  - intros r rows1 rows2 -> Hr (r' & Hr' & Hkey) k v. rewrite !Htable.
    assert (series_mean
              (cell c <$> filter (λ r0, key r0 = k) (rows1 ++ r :: rows2))
            = series_mean
                (cell c <$> filter (λ r0, key r0 = k) (rows1 ++ rows2)))
      as -> by by apply series_mean_present, present_insert_NaN.
    assert ((∃ r0, r0 ∈ rows1 ++ r :: rows2 ∧ key r0 = k)
            ↔ (∃ r0, r0 ∈ rows1 ++ rows2 ∧ key r0 = k)) as ->; [|done].
    split.
    + intros (r0 & Hr0 & Hk).
      apply elem_of_app in Hr0 as [?|[->|?]%elem_of_cons].
      * exists r0. rewrite elem_of_app. auto.
      * exists r'. split; [done|congruence].
      * exists r0. rewrite elem_of_app. auto.
    + intros (r0 & Hr0 & Hk). exists r0. split; [|done].
      apply elem_of_app in Hr0 as [?|?]; rewrite elem_of_app, elem_of_cons;
        auto.
  - intros Hall. unfold series_mean, series_sum. by rewrite (Hnone _ Hall).
  - intros q. apply series_one_present.
  - apply series_sum_fill_zero.
  - intros Hall. unfold total_content, series_sum. by rewrite (Hnone _ Hall).
  - intros q Hone. unfold total_content.
    by destruct (series_one_present _ q Hone) as [_ ->].
  - intros k. apply elem_of_groupby_labels.
  - intros k Hnone' f v [(r & Hr & Hk) _]%elem_of_groupby_agg.
    by apply (Hnone' r).
Qed.

(** On the sparse table the USA group has one rate present (42) and two
    missing: its mean is 42, not 14; the UK group has none: its mean is
    [nan].  The content-volume column has one value present (7): the total
    is 7. *)
Example sparse_groups :
  country_metric col_adoption sparse_df = [("UK", NaN); ("USA", num 42)]
  ∧ total_content sparse_df = num 7.
Proof.
  split.
  - unfold country_metric. rewrite groupby_agg_unfold.
    change (merge_sort String.le (unique (Country <$> sparse_df)))
      with ["UK"; "USA"].
    cbn [fmap list_fmap]. repeat f_equal. Qc_compute.
  - Qc_compute.
Qed.

(** C8, counterexample.  The three USA rows with adoption rates 13.8, 58.3
    and 86.8, read from first to last and from last to first, give two
    different binary64 means, with the compensated sum of the group-by mean
    and with a plain sum alike: the country table of the reversed rows is
    not the country table of the rows. *)
Lemma group_mean_depends_on_row_order :
  rounding_df ≡ₚ rounding_df_reversed
  ∧ (∃ m m',
       binary64_country_metric kahan_sum col_adoption rounding_df
         = [("USA", m)]
       ∧ binary64_country_metric kahan_sum col_adoption rounding_df_reversed
         = [("USA", m')]
       ∧ PrimFloat.ltb m m' = true)
  ∧ binary64_country_metric kahan_sum col_adoption rounding_df_reversed
    ≠ binary64_country_metric kahan_sum col_adoption rounding_df
  ∧ binary64_country_metric plain_sum col_adoption rounding_df_reversed
    ≠ binary64_country_metric plain_sum col_adoption rounding_df.
Proof.
  assert (∀ alg,
    binary64_country_metric alg col_adoption rounding_df_reversed
    = binary64_country_metric alg col_adoption rounding_df →
    binary64_mean alg col_adoption rounding_df_reversed
    = binary64_mean alg col_adoption rounding_df) as Hmean.
  { intros alg Heq. unfold binary64_country_metric in Heq.
    rewrite !groupby_agg_unfold in Heq.
    change (merge_sort String.le (unique (Country <$> rounding_df_reversed)))
      with ["USA"] in Heq.
    change (merge_sort String.le (unique (Country <$> rounding_df)))
      with ["USA"] in Heq.
    cbn [fmap list_fmap] in Heq.
    change (filter (λ r : Row, Country r = "USA") rounding_df_reversed)
      with rounding_df_reversed in Heq.
    change (filter (λ r : Row, Country r = "USA") rounding_df)
      with rounding_df in Heq.
    by injection Heq. }
  split_and!.
  - symmetry. exact (reverse_Permutation rounding_df).
  - do 2 eexists. split_and!; [vm_compute; reflexivity..|].
    vm_compute. reflexivity.
  - intros Hm%Hmean.
    apply (f_equal (PrimFloat.ltb
                      (binary64_mean kahan_sum col_adoption rounding_df)))
      in Hm.
    vm_compute in Hm. discriminate Hm.
  - intros Hm%Hmean.
    apply (f_equal (PrimFloat.ltb
                      (binary64_mean plain_sum col_adoption rounding_df)))
      in Hm.
    vm_compute in Hm. discriminate Hm.
Qed.

(** C8, as the script has it.  Permuting the rows of a FilteredView
    changes neither the labels of a group-by table nor their order, and
    each label keeps the same rows up to order.  Hence every reduction
    that does not look at the order of the rows gives the same table: the
    count of present values does, and the tool count table keeps the same
    (tool, count) rows.  Nothing is said of the mean and sum values, whose
    binary64 rounding follows the order of the rows. *)
Theorem aggregation_order_independent {K} `{EqDecision K}
    (le : relation K) `{∀ x y, Decision (le x y)}
    `{!Transitive le, !AntiSymm (=) le, !Total le}
    (key : Row → K) (c : column) (fdf fdf' : DataFrame) :
  fdf ≡ₚ fdf' →
  (∀ (V : Type) (agg : DataFrame → V),
      (groupby_agg le key agg fdf').*1 = (groupby_agg le key agg fdf).*1)
  ∧ Forall2 (λ g g', g.1 = g'.1 ∧ g.2 ≡ₚ g'.2)
      (groupby le key fdf) (groupby le key fdf')
  ∧ (∀ (V : Type) (agg : DataFrame → V),
       (∀ rows rows', rows ≡ₚ rows' → agg rows = agg rows') →
       groupby_agg le key agg fdf' = groupby_agg le key agg fdf)
  ∧ groupby_agg le key (reduce agg_count c) fdf'
    = groupby_agg le key (reduce agg_count c) fdf
  ∧ tool_counts fdf' ≡ₚ tool_counts fdf
  ∧ (∀ p, p ∈ tool_counts fdf' ↔ p ∈ tool_counts fdf)
  ∧ (∀ k v, (k, v) ∈ groupby_agg le key (reduce agg_count c) fdf' ↔
       (∃ r, r ∈ fdf ∧ key r = k)
       ∧ v = Some (Qc_of_nat
                     (length (filter (λ r, key r = k ∧ is_Some (cell c r))
                                fdf)))).
Proof.
  intros Hp.
  assert (merge_sort le (unique (key <$> fdf'))
          = merge_sort le (unique (key <$> fdf))) as Hlabels.
  { apply (merge_sort_Permutation_eq le), unique_Permutation.
    by rewrite Hp. }
  assert (tool_counts fdf' ≡ₚ tool_counts fdf) as Htools.
  { unfold tool_counts. apply value_counts_Permutation. by rewrite Hp. }
  split_and!.
  - intros V agg. by rewrite !groupby_agg_labels.
  - unfold groupby. rewrite Hlabels. clear Hlabels.
    induction (merge_sort le (unique (key <$> fdf))) as [|k ks IH];
      [constructor|].
    rewrite !fmap_cons. constructor; [|exact IH].
    simpl. split; [done|]. by rewrite Hp.
  - intros V agg Hagg. symmetry.
    exact (groupby_agg_Permutation le key agg fdf fdf' Hagg Hp).
  - symmetry. refine (groupby_agg_Permutation le key _ fdf fdf' _ Hp).
    intros rows rows' Hrows. simpl.
    apply series_count_Permutation. by rewrite Hrows.
  - exact Htools.
  - intros p. by rewrite Htools.
  - intros k v. rewrite elem_of_groupby_agg.
    assert ((∃ r, r ∈ fdf' ∧ key r = k) ↔ (∃ r, r ∈ fdf ∧ key r = k)) as ->.
    { split; intros (r & Hr & Hk); exists r; split; try done;
        [by rewrite Hp|by rewrite <- Hp]. }
    assert (reduce agg_count c (filter (λ r, key r = k) fdf')
            = Some (Qc_of_nat
                      (length (filter (λ r, key r = k ∧ is_Some (cell c r))
                                 fdf)))) as ->; [|done].
    simpl. unfold series_count. do 2 f_equal.
    rewrite length_dropna, (length_filter_fmap (cell c) is_Some).
    rewrite list_filter_filter, <- Hp.
    f_equal. apply list_filter_iff. intros r. tauto.
Qed.

Lemma aggregation_order_independent_witness :
  sample_df ≡ₚ sample_df_shuffled
  ∧ groupby_agg String.le Country (reduce agg_count col_adoption)
      sample_df_shuffled
    = groupby_agg String.le Country (reduce agg_count col_adoption) sample_df.
Proof.
  assert (sample_df ≡ₚ sample_df_shuffled) as H.
  { symmetry. exact (reverse_Permutation sample_df). }
  split; [exact H|].
  exact (proj1 (proj2 (proj2 (proj2
    (aggregation_order_independent String.le Country col_adoption
       sample_df sample_df_shuffled H))))).
Defined.

(** C9.  In a group-by mean table, a group made of exactly one row is
    paired with that row's own value in the reduced column (a missing
    value stays missing), and with nothing else. *)
Theorem single_row_group_mean {K} `{EqDecision K}
    (le : relation K) `{∀ x y, Decision (le x y)}
    (key : Row → K) (c : column) (fdf : DataFrame) (k : K) (r : Row) :
  filter (λ r', key r' = k) fdf = [r] →
  (k, cell c r) ∈ groupby_agg le key (reduce agg_mean c) fdf
  ∧ (∀ v, (k, v) ∈ groupby_agg le key (reduce agg_mean c) fdf →
          v = cell c r).
Proof.
  intros Hgroup.
  assert (reduce agg_mean c (filter (λ r', key r' = k) fdf) = cell c r)
    as Hmean.
  { rewrite Hgroup. simpl. apply series_mean_singleton. }
  split.
  - apply elem_of_groupby_agg. split; [|done].
    assert (r ∈ filter (λ r', key r' = k) fdf) as Hr
      by (rewrite Hgroup; left).
    apply list_elem_of_filter in Hr as [? ?]. eauto.
  - intros v [_ ->]%elem_of_groupby_agg. exact Hmean.
Qed.

Lemma single_row_group_mean_witness :
  filter (λ r', Country r' = "UK") sample_df
    = [sample_row 2021 "UK" "Retail" (num 30) (num 5)]
  ∧ ("UK", num 30) ∈ country_metric col_adoption sample_df.
Proof.
  assert (filter (λ r', Country r' = "UK") sample_df
          = [sample_row 2021 "UK" "Retail" (num 30) (num 5)]) as H
    by reflexivity.
  split; [exact H|].
  exact (proj1 (single_row_group_mean String.le Country col_adoption
                  sample_df "UK" _ H)).
Defined.

(** * Further properties of the script *)

(** ** Sidebar options and the filter *)

Lemma sorted_unique_strict {A} `{EqDecision A} (R : relation A)
    `{∀ x y, Decision (R x y)} `{!Transitive R, !Total R} (s : list A) :
  StronglySorted (λ x y, R x y ∧ x ≠ y) (merge_sort R (unique s)).
Proof.
  pose proof (StronglySorted_merge_sort R (unique s)) as Hs.
  assert (NoDup (merge_sort R (unique s))) as Hnd
    by (rewrite merge_sort_Permutation; apply NoDup_unique).
  induction Hs as [|x l Hl IH Hx]; [constructor|].
  apply NoDup_cons in Hnd as [Hnotin Hnd].
  constructor; [by apply IH|].
  apply Forall_forall. intros y Hy. split.
  - by eapply Forall_forall in Hx.
  - by intros ->.
Qed.

Lemma StronglySorted_weaken {A} (R1 R2 : relation A) (l : list A) :
  (∀ x y, R1 x y → R2 x y) → StronglySorted R1 l → StronglySorted R2 l.
Proof.
  intros HR. induction 1 as [|x l _ IH Hx]; constructor; [done|].
  eapply Forall_impl; [exact Hx|]. auto.
Qed.

(** X1.  The option lists of the three multiselects list each value of
    their column exactly once, in strictly ascending order. *)
Theorem sidebar_options_strictly_sorted (df : DataFrame) :
  StronglySorted Z.lt (years df)
  ∧ StronglySorted (λ a b, String.le a b ∧ a ≠ b) (countries df)
  ∧ StronglySorted (λ a b, String.le a b ∧ a ≠ b) (industries df)
  ∧ NoDup (years df) ∧ NoDup (countries df) ∧ NoDup (industries df)
  ∧ (∀ r, r ∈ df →
       Year r ∈ years df ∧ Country r ∈ countries df
       ∧ Industry r ∈ industries df).
Proof.
  unfold years, countries, industries, sorted_Z, sorted_str. split_and!.
  - eapply StronglySorted_weaken; [|apply (sorted_unique_strict Z.le)].
    intros x y [? ?]. simpl in *. lia.
  - apply (sorted_unique_strict String.le).
  - apply (sorted_unique_strict String.le).
  - rewrite merge_sort_Permutation. apply NoDup_unique.
  - rewrite merge_sort_Permutation. apply NoDup_unique.
  - rewrite merge_sort_Permutation. apply NoDup_unique.
  - intros r Hr.
    rewrite !merge_sort_Permutation, !elem_of_unique, !list_elem_of_fmap.
    eauto 10.
Qed.

Lemma filter_sublist_impl {A} (P Q : A → Prop) `{∀ x, Decision (P x)}
    `{∀ x, Decision (Q x)} (l : list A) :
  (∀ x, x ∈ l → P x → Q x) → filter P l `sublist_of` filter Q l.
Proof.
  induction l as [|x l IH]; intros HPQ; [done|].
  assert (filter P l `sublist_of` filter Q l) as Hl.
  { apply IH. intros y Hy. apply HPQ. by right. }
  rewrite !filter_cons. destruct (decide (P x)) as [HP|HP].
  - rewrite decide_True by (apply HPQ; [left|done]). by apply sublist_skip.
  - destruct (decide (Q x)); [by apply sublist_cons|done].
Qed.

(** X2.  Only the set of chosen values matters: two selections with the
    same members (picked in another order, or with repeats) give the same
    FilteredView. *)
Theorem filtered_df_selection_as_set (df : DataFrame) (ys ys' : list Z)
    (cs cs' inds inds' : list string) :
  (∀ y, y ∈ ys ↔ y ∈ ys') →
  (∀ c, c ∈ cs ↔ c ∈ cs') →
  (∀ i, i ∈ inds ↔ i ∈ inds') →
  filtered_df df ys cs inds = filtered_df df ys' cs' inds'.
Proof.
  intros Hy Hc Hi. rewrite !filtered_df_filter.
  apply list_filter_iff. intros r. unfold selected.
  by rewrite Hy, Hc, Hi.
Qed.

Lemma filtered_df_selection_as_set_witness :
  filtered_df sample_df [2020; 2021] ["USA"; "UK"] ["Media"]
  = filtered_df sample_df [2021; 2020; 2021] ["UK"; "USA"] ["Media"; "Media"].
Proof.
  apply filtered_df_selection_as_set; intros x;
    rewrite ?elem_of_cons, ?elem_of_nil; tauto.
Defined.

(** X3.  Widening a selection never removes rows: if each selection is
    contained in a wider one, the narrower FilteredView is a sub-table (rows
    in the same order) of the wider one. *)
Theorem filtered_df_monotone (df : DataFrame) (ys ys' : list Z)
    (cs cs' inds inds' : list string) :
  ys ⊆ ys' → cs ⊆ cs' → inds ⊆ inds' →
  filtered_df df ys cs inds `sublist_of` filtered_df df ys' cs' inds'.
Proof.
  intros Hy Hc Hi. rewrite !filtered_df_filter.
  apply filter_sublist_impl. intros r _ (? & ? & ?).
  split_and!; [by apply Hy|by apply Hc|by apply Hi].
Qed.

Lemma filtered_df_monotone_witness :
  filtered_df sample_df [2020] ["USA"] ["Media"]
    `sublist_of` filtered_df sample_df [2020; 2021] ["USA"; "UK"] ["Media"].
Proof.
  apply filtered_df_monotone; intros x;
    rewrite ?elem_of_cons, ?elem_of_nil; tauto.
Defined.

(** X4.  Filtering a FilteredView again keeps the rows that pass both
    selections, whichever is applied first; applying the same selection
    twice changes nothing. *)
Theorem filtered_df_compose (df : DataFrame) (ys ys' : list Z)
    (cs cs' inds inds' : list string) :
  filtered_df (filtered_df df ys cs inds) ys' cs' inds'
  = filter (λ r, selected ys cs inds r ∧ selected ys' cs' inds' r) df
  ∧ filtered_df (filtered_df df ys cs inds) ys' cs' inds'
    = filtered_df (filtered_df df ys' cs' inds') ys cs inds
  ∧ filtered_df (filtered_df df ys cs inds) ys cs inds
    = filtered_df df ys cs inds.
Proof.
  rewrite !filtered_df_filter, !list_filter_filter. split_and!.
  - apply list_filter_iff. intros r. tauto.
  - apply list_filter_iff. intros r. tauto.
  - apply list_filter_iff. intros r. tauto.
Qed.

Lemma nunique_le_of_subset {A} `{EqDecision A} (s t : list A) :
  (∀ x, x ∈ s → x ∈ t) → (nunique s ≤ nunique t)%nat.
Proof.
  intros Hst. unfold nunique. apply submseteq_length, NoDup_submseteq.
  - apply NoDup_unique.
  - intros x. rewrite !elem_of_unique. apply Hst.
Qed.

(** X5.  The "Countries Covered" and "Industries Covered" KPIs of a
    FilteredView never exceed the number of distinct countries
    (industries) selected, nor the number present in the whole table. *)
Theorem distinct_counts_bounded (df : DataFrame) (ys : list Z)
    (cs inds : list string) :
  let fdf := filtered_df df ys cs inds in
  (num_countries fdf ≤ nunique cs)%nat
  ∧ (num_countries fdf ≤ num_countries df)%nat
  ∧ (num_industries fdf ≤ nunique inds)%nat
  ∧ (num_industries fdf ≤ num_industries df)%nat.
Proof.
  intros fdf. subst fdf. unfold num_countries, num_industries.
  rewrite filtered_df_filter.
  split_and!; apply nunique_le_of_subset; intros x;
    rewrite !list_elem_of_fmap;
    intros (r & -> & [(? & ? & ?) ?]%list_elem_of_filter); eauto.
Qed.

(** X6.  The distinct-count KPIs agree with the charts: the country bar
    tables have one row per country of the FilteredView, each country once,
    so their length is "Countries Covered"; likewise for industries. *)
Theorem distinct_counts_match_bar_tables (metric : column) (fdf : DataFrame) :
  length (country_metric_bar metric fdf) = num_countries fdf
  ∧ length (content_volume_bar fdf) = num_countries fdf
  ∧ length (industry_metric_bar metric fdf) = num_industries fdf
  ∧ NoDup (country_metric_bar metric fdf).*1
  ∧ NoDup (content_volume_bar fdf).*1
  ∧ NoDup (industry_metric_bar metric fdf).*1.
Proof.
  assert (∀ (key : Row → string) agg,
    length (sort_values_desc (groupby_agg String.le key agg fdf))
      = nunique (key <$> fdf)
    ∧ NoDup (sort_values_desc (groupby_agg String.le key agg fdf)).*1)
    as Hgen.
  { intros key agg. unfold sort_values_desc.
    rewrite merge_sort_Permutation. split.
    - rewrite groupby_agg_unfold, length_fmap.
      by rewrite merge_sort_Permutation.
    - apply NoDup_groupby_labels. }
  unfold country_metric_bar, content_volume_bar, industry_metric_bar,
    country_metric, content_volume, industry_metric, num_countries,
    num_industries.
  split_and!; apply Hgen.
Qed.

(** ** Tool counts *)

Lemma sum_list_with_indicator {A} `{EqDecision A} (x : A) (l : list A) :
  NoDup l → x ∈ l →
  sum_list_with (λ v, if decide (x = v) then 1%nat else 0%nat) l = 1%nat.
Proof.
  induction 1 as [|y l Hy Hnd IH]; intros Hx; [by apply elem_of_nil in Hx|].
  simpl. destruct (decide (x = y)) as [->|Hne].
  - assert (sum_list_with
              (λ v, if decide (y = v) then 1%nat else 0%nat) l = 0%nat) as ->;
      [|done].
    clear IH Hx Hnd. induction l as [|z l IH]; [done|].
    apply not_elem_of_cons in Hy as [? ?]. simpl.
    rewrite decide_False by done. by apply IH.
  - apply elem_of_cons in Hx as [?|Hx]; [done|]. by rewrite IH.
Qed.

Lemma sum_list_with_counts {A} `{EqDecision A} (s l : list A) :
  NoDup l → (∀ x, x ∈ s → x ∈ l) →
  sum_list_with (λ v, length (filter (λ x, x = v) s)) l = length s.
Proof.
  intros Hnd. induction s as [|x s IH]; intros Hin.
  - clear Hnd Hin. induction l as [|v l IHl]; [done|]. simpl. apply IHl.
  - assert (∀ k : list A,
      sum_list_with (λ v, length (filter (λ y, y = v) (x :: s))) k
      = (sum_list_with (λ v, if decide (x = v) then 1%nat else 0%nat) k
         + sum_list_with (λ v, length (filter (λ y, y = v) s)) k)%nat)
      as Hsplit.
    { intros k. induction k as [|v k IHk]; [done|]. simpl.
      rewrite IHk, filter_cons. destruct (decide (x = v)); simpl; lia. }
    rewrite Hsplit, IH, sum_list_with_indicator; [done..| |].
    + apply Hin. left.
    + intros y Hy. apply Hin. by right.
Qed.

Lemma value_counts_spec (s : list (option string)) :
  NoDup (value_counts s).*1
  ∧ (∀ v n, (v, n) ∈ value_counts s ↔
        Some v ∈ s ∧ n = length (filter (λ x, x = Some v) s))
  ∧ sum_list (value_counts s).*2 = length (filter is_Some s)
  ∧ StronglySorted count_desc (value_counts s).
Proof.
  unfold value_counts. set (present := omap id s).
  set (t := (λ v, (v, length (filter (λ x, x = v) present)))
              <$> unique present).
  assert (t.*1 = unique present) as Hfst.
  { unfold t. rewrite <- list_fmap_compose.
    rewrite <- (list_fmap_id (unique present)) at 2.
    by apply list_fmap_ext. }
  assert (∀ v, v ∈ present ↔ Some v ∈ s) as Hpresent.
  { intros v. unfold present. rewrite list_elem_of_omap. split.
    - intros (x & Hx & Heq). simpl in Heq. by subst x.
    - intros Hv. by exists (Some v). }
  split_and!.
  - rewrite merge_sort_Permutation, Hfst. apply NoDup_unique.
  - intros v n. rewrite merge_sort_Permutation. unfold t.
    rewrite list_elem_of_fmap, <- Hpresent.
    unfold present at 2. rewrite <- length_filter_omap_id. split.
    + intros (v' & [= -> ->] & Hv). split; [|done].
      by rewrite <- elem_of_unique.
    + intros [Hv ->]. exists v. by rewrite elem_of_unique.
  - rewrite merge_sort_Permutation. unfold t.
    rewrite <- list_fmap_compose, <- length_omap_id. simpl.
    fold present. rewrite <- (sum_list_with_counts present (unique present)).
    + clear Hfst t. generalize (unique present). intros l.
      induction l as [|v l IHl]; simpl; [done|]. f_equal. exact IHl.
    + apply NoDup_unique.
    + intros x. by rewrite elem_of_unique.
  - apply StronglySorted_merge_sort; apply _.
Qed.

(** X7.  The "Most Used AI Tools" table lists each tool recorded in the
    FilteredView once, with the number of rows that record it (at least
    one), most used first.  Rows with no tool recorded are left out: the
    counts add up to the number of rows that record a tool, which is at
    most the number of rows of the view. *)
Theorem tool_counts_correct (fdf : DataFrame) :
  NoDup (tool_counts fdf).*1
  ∧ (∀ tool n, (tool, n) ∈ tool_counts fdf ↔
        (∃ r, r ∈ fdf ∧ Top_AI_Tools_Used r = Some tool)
        ∧ n = length (filter (λ r, Top_AI_Tools_Used r = Some tool) fdf))
  ∧ (∀ tool n, (tool, n) ∈ tool_counts fdf → (1 ≤ n)%nat)
  ∧ sum_list (tool_counts fdf).*2
    = length (filter (λ r, is_Some (Top_AI_Tools_Used r)) fdf)
  ∧ (sum_list (tool_counts fdf).*2 ≤ length fdf)%nat
  ∧ StronglySorted count_desc (tool_counts fdf).
Proof.
  destruct (value_counts_spec (Top_AI_Tools_Used <$> fdf))
    as (Hnd & Hin & Hsum & Hsorted).
  rewrite (length_filter_fmap Top_AI_Tools_Used is_Some) in Hsum.
  assert (∀ tool n, (tool, n) ∈ tool_counts fdf ↔
        (∃ r, r ∈ fdf ∧ Top_AI_Tools_Used r = Some tool)
        ∧ n = length (filter (λ r, Top_AI_Tools_Used r = Some tool) fdf))
    as Hspec.
  { intros tool n. unfold tool_counts.
    rewrite Hin, list_elem_of_fmap,
      (length_filter_fmap Top_AI_Tools_Used (λ x, x = Some tool)).
    split.
    - intros [(r & -> & ?) ->]; eauto.
    - intros [(r & ? & <-) ->]; eauto. }
  split_and!; [exact Hnd|exact Hspec| |exact Hsum| |exact Hsorted].
  - intros tool n [(r & Hr & Htool) ->]%Hspec.
    assert (r ∈ filter (λ r, Top_AI_Tools_Used r = Some tool) fdf) as Hmem
      by by apply list_elem_of_filter.
    destruct (filter (λ r, Top_AI_Tools_Used r = Some tool) fdf);
      [by apply elem_of_nil in Hmem|simpl; lia].
  - unfold tool_counts in *. rewrite Hsum.
    apply sublist_length, sublist_filter.
Qed.

(** ** Tool usage of the selected industry or country *)

Lemma getitem_eq_mask (key : Row → string) (v : option string)
    (fdf : DataFrame) :
  getitem_mask fdf (eq_mask (key <$> fdf) v)
  = filter (λ r, Some (key r) = v) fdf.
Proof.
  unfold eq_mask. rewrite <- list_fmap_compose.
  apply (getitem_mask_filter (λ r, Some (key r) = v)).
Qed.

Lemma filter_none_on {A} (P : A → Prop) `{∀ x, Decision (P x)} (l : list A) :
  (∀ x, x ∈ l → ¬ P x) → filter P l = [].
Proof.
  induction l as [|x l IH]; intros HP; [done|].
  rewrite filter_cons_False by (apply HP; left).
  apply IH. intros y Hy. apply HP. by right.
Qed.

Lemma tools_of_selection (key : Row → string) (index : nat)
    (fdf : DataFrame) :
  let choice := selectbox index (unique (key <$> fdf)) in
  let rows := getitem_mask fdf (eq_mask (key <$> fdf) choice) in
  let data := value_counts (Top_AI_Tools_Used <$> rows) in
  match choice with
  | Some k => rows = filter (λ r, key r = k) fdf ∧ rows ≠ []
  | None => rows = [] ∧ data = []
  end
  ∧ sum_list data.*2
    = length (filter (λ r, is_Some (Top_AI_Tools_Used r)) rows)
  ∧ (data = [] ↔ ∀ r, r ∈ rows → Top_AI_Tools_Used r = None)
  ∧ rows `sublist_of` fdf
  ∧ (choice = None ↔ (nunique (key <$> fdf) ≤ index)%nat).
Proof.
  intros choice rows data.
  assert (sum_list data.*2
          = length (filter (λ r, is_Some (Top_AI_Tools_Used r)) rows))
    as Hsum.
  { unfold data. destruct (value_counts_spec (Top_AI_Tools_Used <$> rows))
      as (_ & _ & -> & _). apply length_filter_fmap. }
  assert (rows = filter (λ r, Some (key r) = choice) fdf) as Hrows
    by apply getitem_eq_mask.
  split_and!; [|exact Hsum| |rewrite Hrows; apply sublist_filter
              |apply lookup_ge_None].
  - destruct choice as [k|] eqn:Hchoice.
    + assert (rows = filter (λ r, key r = k) fdf) as Hk.
      { rewrite Hrows. apply list_filter_iff. intros r.
        split; [by intros [= ->]|by intros ->]. }
      split; [exact Hk|].
      assert (k ∈ unique (key <$> fdf)) as Hin
        by (apply list_elem_of_lookup; eauto).
      apply elem_of_unique, list_elem_of_fmap in Hin as (r & -> & Hr).
      intros Hnil.
      assert (r ∈ rows) as Hmem by (rewrite Hk; by apply list_elem_of_filter).
      rewrite Hnil in Hmem. by apply elem_of_nil in Hmem.
    + assert (rows = []) as Hnil.
      { rewrite Hrows. apply filter_none. by intros r. }
      split; [exact Hnil|]. unfold data. by rewrite Hnil.
  - split.
    + intros Hdata r Hr. rewrite Hdata in Hsum. simpl in Hsum.
      destruct (Top_AI_Tools_Used r) as [tool|] eqn:Htool; [|done].
      assert (r ∈ filter (λ r, is_Some (Top_AI_Tools_Used r)) rows) as Hmem.
      { apply list_elem_of_filter. split; [|done]. rewrite Htool. eauto. }
      destruct (filter _ rows); [by apply elem_of_nil in Hmem|discriminate].
    + intros Hall.
      assert (filter (λ r, is_Some (Top_AI_Tools_Used r)) rows = []) as Hnone.
      { apply filter_none_on. intros r Hr [tool Htool].
        rewrite (Hall r Hr) in Htool. discriminate. }
      rewrite Hnone in Hsum. simpl in Hsum.
      destruct (value_counts_spec (Top_AI_Tools_Used <$> rows))
        as (_ & Hin & _ & _).
      fold data in Hin. destruct data as [|[tool n] data']; [done|].
      assert ((tool, n) ∈ (tool, n) :: data') as Hmem by left.
      apply Hin in Hmem as [(r & Htool & Hr)%list_elem_of_fmap _].
      rewrite (Hall r Hr) in Htool. discriminate.
Qed.

(** X8.  Tool donuts of the deep-dive tab.  When the select box yields an
    industry, the donut is built from exactly the rows of the FilteredView
    in that industry, of which there is at least one; its counts add up to
    the number of those rows that record a tool, and its data list is
    empty exactly when none of them does.  When the select box yields
    nothing, which at the initial position happens exactly for an empty
    FilteredView, the row selection and the data list are empty.  The same
    holds for the country donut. *)
Theorem tool_donuts_correct (index : nat) (fdf : DataFrame) :
  (match selected_industry index fdf with
   | Some ind =>
       industry_tools index fdf = filter (λ r, Industry r = ind) fdf
       ∧ industry_tools index fdf ≠ []
   | None => industry_tools index fdf = [] ∧ industry_pie_data index fdf = []
   end
   ∧ sum_list (industry_pie_data index fdf).*2
     = length (filter (λ r, is_Some (Top_AI_Tools_Used r))
                 (industry_tools index fdf))
   ∧ (industry_pie_data index fdf = [] ↔
        ∀ r, r ∈ industry_tools index fdf → Top_AI_Tools_Used r = None)
   ∧ industry_tools index fdf `sublist_of` fdf
   ∧ (selected_industry index fdf = None ↔
        (num_industries fdf ≤ index)%nat))
  ∧ (match selected_country index fdf with
     | Some c =>
         country_tools index fdf = filter (λ r, Country r = c) fdf
         ∧ country_tools index fdf ≠ []
     | None => country_tools index fdf = [] ∧ country_pie_data index fdf = []
     end
     ∧ sum_list (country_pie_data index fdf).*2
       = length (filter (λ r, is_Some (Top_AI_Tools_Used r))
                   (country_tools index fdf))
     ∧ (country_pie_data index fdf = [] ↔
          ∀ r, r ∈ country_tools index fdf → Top_AI_Tools_Used r = None)
     ∧ country_tools index fdf `sublist_of` fdf
     ∧ (selected_country index fdf = None ↔
          (num_countries fdf ≤ index)%nat))
  ∧ (selected_industry 0 fdf = None ↔ fdf = [])
  ∧ (selected_country 0 fdf = None ↔ fdf = []).
Proof.
  split; [|split; [|split]].
  - exact (tools_of_selection Industry index fdf).
  - exact (tools_of_selection Country index fdf).
  - destruct fdf; [done|]. split; discriminate.
  - destruct fdf; [done|]. split; discriminate.
Qed.

(** On the four-row tool table the first industry met is Media; its donut
    counts Claude twice and ChatGPT once.  On the two-row table whose
    second row records no tool, the tool table counts one row only, and
    the donut of the Retail industry has no data. *)
Example tool_donut_sample :
  selected_industry 0 tools_df = Some "Media"
  ∧ industry_pie_data 0 tools_df = [("Claude", 2%nat); ("ChatGPT", 1%nat)]
  ∧ selected_industry 1 tools_df = Some "Retail"
  ∧ industry_pie_data 1 tools_df = [("Claude", 1%nat)]
  ∧ tool_counts missing_tool_df = [("ChatGPT", 1%nat)]
  ∧ selected_industry 1 missing_tool_df = Some "Retail"
  ∧ industry_pie_data 1 missing_tool_df = [].
Proof. split_and!; reflexivity. Qed.

(** ** Trend lines *)

Lemma StronglySorted_fmap_filter {A B} (R : relation A) (R' : relation B)
    (P : A → Prop) `{∀ x, Decision (P x)} (f : A → B) (l : list A) :
  (∀ x y, P x → P y → R x y → R' (f x) (f y)) →
  StronglySorted R l → StronglySorted R' (f <$> filter P l).
Proof.
  intros HR. induction 1 as [|x l _ IH Hx]; [constructor|].
  rewrite filter_cons. destruct (decide (P x)) as [HP|HP]; [|done].
  rewrite fmap_cons. constructor; [done|].
  apply Forall_fmap, Forall_forall. intros y [HPy Hy]%list_elem_of_filter.
  apply HR; [done..|]. by eapply Forall_forall in Hx.
Qed.

Lemma trend_line_years (key2 : Row → string) (agg : DataFrame → float)
    (fdf : DataFrame) (s : string) :
  StronglySorted Z.lt
    ((λ p : (Z * string) * float, p.1.1) <$>
       filter (λ p, p.1.2 = s)
         (groupby_agg year_label_le (λ r, (Year r, key2 r)) agg fdf)).
Proof.
  rewrite groupby_agg_unfold.
  apply (StronglySorted_fmap_filter
           (λ p q, year_label_le p.1 q.1 ∧ p.1 ≠ q.1)).
  - intros [[y1 s1] v1] [[y2 s2] v2]; simpl. intros Hs1 Hs2 [Hle Hne].
    unfold year_label_le in Hle. simpl in Hle. subst s1 s2.
    destruct Hle as [?|[Heq _]]; [done|]. subst y2. by destruct Hne.
  - eapply StronglySorted_fmap;
      [|apply (sorted_unique_strict year_label_le)].
    intros k1 k2. simpl. tauto.
Qed.

(** X11.  Each line of a trend chart has one point per year, in ascending
    year order: within a trend table, the rows of one country (or industry)
    have strictly increasing years. *)
Theorem trend_lines_strictly_ascending (metric : column) (g : group_by)
    (fdf : DataFrame) (line : string) :
  StronglySorted Z.lt
    ((λ p, p.1.1) <$> filter (λ p, p.1.2 = line) (country_trend fdf))
  ∧ StronglySorted Z.lt
      ((λ p, p.1.1) <$> filter (λ p, p.1.2 = line) (industry_trend fdf))
  ∧ StronglySorted Z.lt
      ((λ p, p.1.1) <$> filter (λ p, p.1.2 = line) (time_trend metric g fdf))
  ∧ NoDup (time_trend metric g fdf).*1
  ∧ (∀ y s v, ((y, s), v) ∈ time_trend metric g fdf →
       ∃ r, r ∈ fdf ∧ Year r = y ∧ group_column g r = s).
Proof.
  split_and!; try apply trend_line_years.
  - apply NoDup_groupby_labels.
  - intros y s v [(r & Hr & [= <- <-]) _]%elem_of_groupby_agg. eauto.
Qed.

